(** * gopenslide: the Deep Zoom geometry of [deepzoom.go]

    A shallow embedding of the pyramid and tile geometry of the Deep Zoom
    generator ([deepzoom.go], with the helpers of [helpers.go] and the
    property names of [props.go]) and the properties of its specification.

    Numeric conventions of the embedding.
    - Go's [int], [int32] and [int64] are read as [Z].  The geometry only
      manipulates pixel and tile counts; no wrap-around is modelled, so the
      results speak about runs in which no [int] operation leaves the 64-bit
      range.
    - Go's [float64] is read as the exact rationals [Q]: every floating-point
      operation is taken without rounding error.  This agrees with IEEE
      binary64 whenever the operands and the result are exactly
      representable, which covers the integers of magnitude at most 2^53,
      their halves and the powers of two used by the generator.
    - A run-time panic (slice index out of range, integer division by zero)
      is a result of its own, distinct from a returned [error]. *)

From Stdlib Require Import ZArith QArith Qround List String Ascii Lia Bool.
From Stdlib Require Import Sorting.Sorted DecimalString.
From Stdlib Require Import Qfield Qpower Permutation.
From Stdlib Require Strings.Byte.
From Stdlib Require Import DecimalPos.
From Equations Require Import Equations.
Import ListNotations.

Local Open Scope Z_scope.

(** ** Results of fallible code *)

(** The two errors [tileInfo] creates with [errors.New]. *)
Inductive error : Type :=
| InvalidLevel
| InvalidAddress.

Definition Error (e : error) : string :=
  match e with
  | InvalidLevel => "invalid levelDownsample"
  | InvalidAddress => "invalid address"
  end.

(** A call returns a value, returns a non-nil [error], or panics. *)
Inductive result (A : Type) : Type :=
| Ok (a : A)
| Err (e : error)
| Panic.

Arguments Ok {A} a.
Arguments Err {A} e.
Arguments Panic {A}.

Definition bind {A B : Type} (r : result A) (k : A -> result B) : result B :=
  match r with
  | Ok a => k a
  | Err e => Err e
  | Panic => Panic
  end.

Notation "x <- r ;; k" := (bind r (fun x => k))
  (at level 61, r at next level, right associativity).

(** Indexing a slice: out of range panics. *)
Definition index {A : Type} (s : list A) (i : Z) : result A :=
  if i <? 0 then Panic
  else match nth_error s (Z.to_nat i) with
       | Some a => Ok a
       | None => Panic
       end.

Definition len {A : Type} (s : list A) : Z := Z.of_nat (List.length s).

(** The counter values of [for i := 0; i < n; i++]. *)
Definition upto (n : Z) : list Z := map Z.of_nat (seq 0 (Z.to_nat n)).

(** ** float64 operations *)

Module F64.

Definition float64 (n : Z) : Q := inject_Z n.

(** [int(x)]: conversion truncates toward zero. *)
Definition int (x : Q) : Z := Z.quot (Qnum x) (Zpos (Qden x)).

Definition Ceil (x : Q) : Q := inject_Z (Qceiling x).

Definition Max (x y : Q) : Q := if Qle_bool x y then y else x.

Definition Min (x y : Q) : Q := if Qle_bool x y then x else y.

(** [math.Pow(x, y)], used by the generator at integral [y] only. *)
Definition Pow (x y : Q) : Q := Qpower x (Qfloor y).

End F64.

(** ** image.Point *)

Record Point : Type := mkPoint { X : Z; Y : Z }.

Definition Point_zero : Point := mkPoint 0 0.

(** ** helpers.go *)

Definition boolToInt (b : bool) : Z := if b then 1 else 0.

(** [reverse] swaps in place; on the value of the slice it is [rev]. *)
Definition reverse {A : Type} (a : list A) : list A := rev a.

(** ** Pyramid levels *)

(** One pass of the loop body of [getDeepZoomLevels]. *)
Definition halve (zSize : Point) : Point :=
  mkPoint (F64.int (F64.Max 1 (F64.Ceil (F64.float64 (X zSize) / 2))))
          (F64.int (F64.Max 1 (F64.Ceil (F64.float64 (Y zSize) / 2)))).

Definition size_measure (zSize : Point) : nat :=
  Z.to_nat (Z.max (X zSize) (Y zSize)).

(** Integer-valued floats behave like the integers they hold. *)
Lemma int_float64 (n : Z) : F64.int (F64.float64 n) = n.
Proof. unfold F64.int, F64.float64. cbn. apply Z.quot_1_r. Qed.

Lemma Max_float64 (a b : Z) :
  F64.Max (F64.float64 a) (F64.float64 b) = F64.float64 (Z.max a b).
Proof.
  unfold F64.Max, F64.float64, Qle_bool. cbn [Qnum Qden inject_Z].
  rewrite !Z.mul_1_r.
  destruct (a <=? b) eqn:E; f_equal; lia.
Qed.


(** Ceiling of a quotient of integers by a positive integer. *)
Lemma Qceiling_div (a : Z) (b : positive) :
  Qceiling (F64.float64 a / F64.float64 (Zpos b)) = (a + Zpos b - 1) / Zpos b.
Proof.
  unfold Qceiling, Qfloor, F64.float64, inject_Z, Qdiv, Qinv, Qmult, Qopp.
  cbn [Qnum Qden]. rewrite Z.mul_1_r. rewrite Pos.mul_1_l.
  pose proof (Z.div_mod (- a) (Zpos b) ltac:(lia)).
  pose proof (Z.div_mod (a + Zpos b - 1) (Zpos b) ltac:(lia)).
  pose proof (Z.mod_pos_bound (- a) (Zpos b) ltac:(lia)).
  pose proof (Z.mod_pos_bound (a + Zpos b - 1) (Zpos b) ltac:(lia)).
  nia.
Qed.

Lemma int_Max_Ceil_half (n : Z) :
  F64.int (F64.Max 1 (F64.Ceil (F64.float64 n / 2))) = Z.max 1 ((n + 1) / 2).
Proof.
  unfold F64.Ceil.
  change 2%Q with (F64.float64 2). rewrite Qceiling_div.
  change 1%Q with (F64.float64 1). rewrite Max_float64, int_float64.
  do 2 f_equal. lia.
Qed.

Lemma halve_spec (zSize : Point) :
  halve zSize = mkPoint (Z.max 1 ((X zSize + 1) / 2)) (Z.max 1 ((Y zSize + 1) / 2)).
Proof. unfold halve. now rewrite !int_Max_Ceil_half. Qed.

Lemma halve_decreases (zSize : Point) :
  (X zSize <=? 1) && (Y zSize <=? 1) = false ->
  (size_measure (halve zSize) < size_measure zSize)%nat.
Proof.
  intros H. rewrite halve_spec. unfold size_measure. cbn [X Y].
  apply andb_false_iff in H.
  pose proof (Z.div_mod (X zSize + 1) 2 ltac:(lia)).
  pose proof (Z.div_mod (Y zSize + 1) 2 ltac:(lia)).
  pose proof (Z.mod_pos_bound (X zSize + 1) 2 ltac:(lia)).
  pose proof (Z.mod_pos_bound (Y zSize + 1) 2 ltac:(lia)).
  destruct H as [H | H]; apply Z.leb_gt in H; lia.
Qed.

Definition inspect {A : Type} (a : A) : {b : A | a = b} := exist _ a eq_refl.

(** The [for] loop of [getDeepZoomLevels]: it leaves when both axes are at
    most 1, and otherwise halves [zSize] and appends it to [zDimensions]. *)
Equations? levelsLoop (zSize : Point) (zDimensions : list Point) : list Point
  by wf (size_measure zSize) lt :=
  levelsLoop zSize zDimensions with inspect ((X zSize <=? 1) && (Y zSize <=? 1)) := {
    | exist _ true _ => zDimensions
    | exist _ false Hcont => levelsLoop (halve zSize) (zDimensions ++ [halve zSize])
  }.
Proof. now apply halve_decreases. Qed.

Definition getDeepZoomLevels (zSize : Point) : list Point :=
  reverse (levelsLoop zSize [zSize]).

(** ** Tile grid *)

Definition tileCount (tileSize zLim : Z) : Z :=
  F64.int (F64.Ceil (F64.float64 zLim / F64.float64 tileSize)).

Definition getDeepZoomTileLevels (tileSize : Z) (dimensions : list Point) : list Point :=
  map (fun d => mkPoint (tileCount tileSize (X d)) (tileCount tileSize (Y d))) dimensions.

(** ** props.go *)

Definition PropertyBoundsHeight : string := "openslide.bounds-height".
Definition PropertyBoundsWidth : string := "openslide.bounds-width".
Definition PropertyBoundsX : string := "openslide.bounds-x".
Definition PropertyBoundsY : string := "openslide.bounds-y".

(** ** strconv *)

(** [strconv.Atoi] and [strconv.Itoa] belong to the Go standard library.
    They are written here after its documentation: base 10, an optional
    sign followed by at least one digit; a syntax error returns 0, a value
    outside the [int] range returns the nearest bound; both with a non-nil
    error, reported by the boolean. *)
Module strconv.

Definition maxInt : Z := 2 ^ 63 - 1.
Definition minInt : Z := - 2 ^ 63.

Definition digit (c : ascii) : option Z :=
  let n := Z.of_nat (nat_of_ascii c) in
  if (48 <=? n) && (n <=? 57) then Some (n - 48) else None.

Fixpoint digits (s : string) (acc : Z) : option Z :=
  match s with
  | EmptyString => Some acc
  | String c rest =>
      match digit c with
      | Some d => digits rest (10 * acc + d)
      | None => None
      end
  end.

Definition magnitude (s : string) : option Z :=
  match s with
  | EmptyString => None
  | _ => digits s 0
  end.

Definition clamp (v : Z) : Z * bool :=
  if v >? maxInt then (maxInt, true)
  else if v <? minInt then (minInt, true)
  else (v, false).

(** The integer a string denotes, when it has the syntax of one. *)
Definition parse (s : string) : option Z :=
  match s with
  | EmptyString => None
  | String c rest =>
      let '(neg, body) :=
        if Ascii.eqb c "-" then (true, rest)
        else if Ascii.eqb c "+" then (false, rest)
        else (false, s) in
      match magnitude body with
      | None => None
      | Some n => Some (if neg then - n else n)
      end
  end.

Definition Atoi (s : string) : Z * bool :=
  match parse s with
  | None => (0, true)
  | Some v => clamp v
  end.

Definition Itoa (n : Z) : string :=
  DecimalString.NilZero.string_of_int (Z.to_int n).

End strconv.

Definition mustStrToInt (s : string) : Z := fst (strconv.Atoi s).

(** ** The slide *)

(** The [WSI] interface, as far as the generator calls it.  The interface
    and its implementation by the openslide binding are not part of the
    sources at hand; the numeric queries are the fields of this record. *)
Record WSI : Type := mkWSI {
  LevelCount : Z;
  LevelDimensions : Z -> Z * Z;
  LevelDownsample : Z -> Q;
  BestLevelForDownsample : Q -> Z;
  Properties : string -> option string
}.

(** Modelled from the spec: the property lookup of the missing openslide
    binding.  It returns a string; an absent property yields the
    caller-supplied default, and the empty string when the caller supplies
    none. *)
Definition PropertyValueWithDefault (slide : WSI) (name default : string) : string :=
  match Properties slide name with
  | Some v => v
  | None => default
  end.

Definition PropertyValue (slide : WSI) (name : string) : string :=
  PropertyValueWithDefault slide name EmptyString.

(** ** Level dimensions *)

(** Integer division of Go: truncated, and a panic on a zero divisor. *)
Definition idiv (a b : Z) : result Z :=
  if b =? 0 then Panic else Ok (Z.quot a b).

Definition nativeDimensions (slide : WSI) : list Point :=
  map (fun i => let '(w, h) := LevelDimensions slide i in mkPoint w h)
      (upto (LevelCount slide)).

Definition getLevelDimensions (slide : WSI) (limitBounds : bool) : result (list Point) :=
  if LevelCount slide <? 0 then Panic
  else
    let dimensions := nativeDimensions slide in
    if negb limitBounds then Ok dimensions
    else
      d0 <- index dimensions 0 ;;
      let l0width := X d0 in
      let l0height := Y d0 in
      xRatio <- idiv (mustStrToInt (PropertyValueWithDefault slide PropertyBoundsWidth
                                      (strconv.Itoa l0width))) l0width ;;
      yRatio <- idiv (mustStrToInt (PropertyValueWithDefault slide PropertyBoundsHeight
                                      (strconv.Itoa l0height))) l0height ;;
      Ok (map (fun d => mkPoint (X d * xRatio) (Y d * yRatio)) dimensions).

Definition getLevel0Offset (slide : WSI) (limitBounds : bool) : Point :=
  if limitBounds then
    mkPoint (mustStrToInt (PropertyValue slide PropertyBoundsX))
            (mustStrToInt (PropertyValue slide PropertyBoundsY))
  else Point_zero.

(** ** Downsamples *)

Record levelDownsample : Type := mkLevelDownsample {
  ld_level : Z;
  ld_downsample : Q;
  ld_Point : Point
}.

Record downsample : Type := mkDownsample {
  slideLevel : levelDownsample;
  bestLevelDownsample : Q
}.

Definition generateDownsamples (slide : WSI) (dzLevelsCount : Z) : list downsample :=
  map (fun dzLevel =>
         let l0ZDownsample :=
           F64.Pow 2 (F64.float64 dzLevelsCount - F64.float64 dzLevel - 1) in
         let bestLevel := BestLevelForDownsample slide l0ZDownsample in
         let '(w, h) := LevelDimensions slide bestLevel in
         mkDownsample
           (mkLevelDownsample bestLevel (LevelDownsample slide bestLevel) (mkPoint w h))
           (l0ZDownsample / LevelDownsample slide bestLevel))
      (upto dzLevelsCount).

(** ** The generator *)

Record DeepZoomGenerator : Type := mkDeepZoomGenerator {
  wsi : WSI;
  tileSize : Z;
  overlap : Z;
  limitBounds : bool;
  deepZoomTileLevels : list Point;
  deepZoomLevels : list Point;
  level0Offset : Point;
  levels : list Point;
  downsamples : list downsample
}.

Record tileInfo : Type := mkTileInfo {
  l0Location : Point;
  lSize : Point;
  zSize : Point;
  ti_slideLevel : Z
}.

Record Tile : Type := mkTile {
  Level : Z;
  Row : Z;
  Col : Z;
  info : tileInfo
}.

Definition tileInfo_zero : tileInfo := mkTileInfo Point_zero Point_zero Point_zero 0.
Definition Tile_zero : Tile := mkTile 0 0 0 tileInfo_zero.

(** The constructor leaves the [limitBounds] field at its zero value. *)
Definition NewDeepZoomGenerator (slide : WSI) (tileSize overlap : Z) (limitBounds : bool)
  : result DeepZoomGenerator :=
  levels <- getLevelDimensions slide limitBounds ;;
  base <- index levels 0 ;;
  let deepZoomLevels := getDeepZoomLevels base in
  let deepZoomTileLevels := getDeepZoomTileLevels tileSize deepZoomLevels in
  let downsamples := generateDownsamples slide (len deepZoomTileLevels) in
  Ok (mkDeepZoomGenerator slide tileSize overlap false
        deepZoomTileLevels deepZoomLevels
        (getLevel0Offset slide limitBounds) levels downsamples).

Record deepZoomOverlap : Type := mkOverlap {
  top : Z;
  left : Z;
  bottom : Z;
  right : Z
}.

Definition getDeepZoomOverlap (levelDimension : Point) (overlap col row : Z) : deepZoomOverlap :=
  {| left := overlap * boolToInt (negb (col =? 0));
     top := overlap * boolToInt (negb (row =? 0));
     right := overlap * boolToInt (negb (col =? X levelDimension - 1));
     bottom := overlap * boolToInt (negb (row =? Y levelDimension - 1)) |}.

(** The continuous location of a tile in the frame of the native level that
    is read: the local [lLocation] of [tileInfo], one axis. *)
Definition lLocationOf (level : downsample) (zLocation before : Z) : Q :=
  bestLevelDownsample level * (F64.float64 zLocation - F64.float64 before).

Module DZ.

Definition LevelsCount (dz : DeepZoomGenerator) : Z := len (downsamples dz).


Definition Level (dz : DeepZoomGenerator) (level : Z) : result Point :=
  index (deepZoomTileLevels dz) level.

Definition LevelDimensions (dz : DeepZoomGenerator) : list Point := deepZoomLevels dz.

Definition TileCount (dz : DeepZoomGenerator) : Z :=
  fold_left (fun sum dimension => sum + X dimension * Y dimension)
            (deepZoomTileLevels dz) 0.

(** The arithmetic of [tileInfo], once [level], the grid entry and the
    level dimensions have been read from the slices. *)
Definition tileGeometry (dz : DeepZoomGenerator) (level : downsample)
    (grid zDim : Point) (col row : Z) : tileInfo :=
  let dzOverlap := getDeepZoomOverlap grid (overlap dz) col row in
  let zSize :=
    mkPoint
      (F64.int (F64.Min (F64.float64 (tileSize dz))
                        (F64.float64 (X zDim - tileSize dz * col)))
       + left dzOverlap + right dzOverlap)
      (F64.int (F64.Min (F64.float64 (tileSize dz))
                        (F64.float64 (Y zDim - tileSize dz * row)))
       + top dzOverlap + bottom dzOverlap) in
  let zLocation := mkPoint (tileSize dz * col) (tileSize dz * row) in
  let lLocation0 := lLocationOf level (X zLocation) (left dzOverlap) in
  let lLocation1 := lLocationOf level (Y zLocation) (top dzOverlap) in
  let l0Location :=
    mkPoint
      (F64.int (ld_downsample (slideLevel level) * lLocation0
                + F64.float64 (X (level0Offset dz))))
      (F64.int (ld_downsample (slideLevel level) * lLocation1
                + F64.float64 (Y (level0Offset dz)))) in
  let lSize :=
    mkPoint
      (F64.int (F64.Min
                  (F64.Ceil (bestLevelDownsample level * F64.float64 (X zSize)))
                  (F64.float64 (X (ld_Point (slideLevel level))) - F64.Ceil lLocation0)))
      (F64.int (F64.Min
                  (F64.Ceil (bestLevelDownsample level * F64.float64 (Y zSize)))
                  (F64.float64 (Y (ld_Point (slideLevel level))) - F64.Ceil lLocation1))) in
  mkTileInfo l0Location lSize zSize (ld_level (slideLevel level)).

Definition tileInfo (dz : DeepZoomGenerator) (dzLevel col row : Z) : result tileInfo :=
  if (dzLevel <? 0) || (dzLevel >? len (downsamples dz)) then Err InvalidLevel
  else if (col <? 0) || (row <? 0) then Err InvalidAddress
  else
    level <- index (downsamples dz) dzLevel ;;
    grid <- Level dz dzLevel ;;
    zDim <- index (deepZoomLevels dz) dzLevel ;;
    Ok (tileGeometry dz level grid zDim col row).

Definition Tile (dz : DeepZoomGenerator) (level col row : Z) : result Tile :=
  ti <- tileInfo dz level col row ;;
  Ok (mkTile level row col ti).

(** Running a loop body over the counter values, in order; the values the
    bodies send are collected in the order they are sent. *)
Fixpoint each {A B : Type} (l : list A) (body : A -> result (list B)) : result (list B) :=
  match l with
  | [] => Ok []
  | a :: l' =>
      sent <- body a ;;
      rest <- each l' body ;;
      Ok (sent ++ rest)
  end.

(** The tiles the producer of [Iter] sends on the channel, in sending
    order, when the context is never cancelled.  The error of [Tile] is
    dropped: the zero [Tile] that comes with it is sent. *)
Definition Iter (dz : DeepZoomGenerator) :=
  each (upto (LevelsCount dz)) (fun level =>
    grid <- Level dz level ;;
    let cols := X grid in
    let rows := Y grid in
    each (upto rows) (fun row =>
      each (upto cols) (fun col =>
        match Tile dz level col row with
        | Ok tile => Ok [tile]
        | Err _ => Ok [Tile_zero]
        | Panic => Panic
        end))).

End DZ.

(** ** Concrete slides *)

(** Modelled from the spec: the level queries of the missing openslide
    binding over a list of native levels (width, height, downsample).  The
    best level for a downsample is the coarsest level whose downsample does
    not exceed the requested factor, or the finest level if none qualifies;
    a level that does not exist has dimensions (-1, -1) and downsample -1. *)
Definition bestLevel (lv : list (Z * Z * Q)) (requested : Q) : Z :=
  fst (fold_left (fun '(best, i) '(_, _, d) =>
                    (if Qle_bool d requested then i else best, i + 1))
                 lv (0, 0)).

Definition slideOf (lv : list (Z * Z * Q)) (props : list (string * string)) : WSI :=
  {| LevelCount := len lv;
     LevelDimensions := fun i =>
       match index lv i with Ok (w, h, _) => (w, h) | _ => (-1, -1) end;
     LevelDownsample := fun i =>
       match index lv i with Ok (_, _, d) => d | _ => (- (1))%Q end;
     BestLevelForDownsample := bestLevel lv;
     Properties := fun name =>
       option_map snd (find (fun kv => String.eqb (fst kv) name) props) |}.

(** ** Derived notions used by the properties *)

(** The sizes in the order the loop appends them: each size that is not yet
    at most 1 on both axes is followed by its half. *)
Inductive descends : list Point -> Prop :=
| descends_last (z : Point) :
    (X z <=? 1) && (Y z <=? 1) = true -> descends [z]
| descends_step (z : Point) (l : list Point) :
    (X z <=? 1) && (Y z <=? 1) = false ->
    descends (halve z :: l) -> descends (z :: halve z :: l).

(** What [NewDeepZoomGenerator] establishes between the slices of a
    generator: the grid is computed from the level dimensions at the
    generator's tile size, and there is one downsample per level. *)
Record consistent (dz : DeepZoomGenerator) : Prop := {
  consistent_grid :
    deepZoomTileLevels dz = getDeepZoomTileLevels (tileSize dz) (deepZoomLevels dz);
  consistent_downsamples :
    List.length (downsamples dz) = List.length (deepZoomLevels dz)
}.

Definition sumZ (l : list Z) : Z := fold_right Z.add 0 l.

(** The size of a tile without its overlap: [zSize] minus the overlap that
    [tileInfo] added on each side. *)
Definition unpadded (dz : DeepZoomGenerator) (level col row : Z) : result Point :=
  ti <- DZ.tileInfo dz level col row ;;
  grid <- DZ.Level dz level ;;
  let o := getDeepZoomOverlap grid (overlap dz) col row in
  Ok (mkPoint (X (zSize ti) - left o - right o) (Y (zSize ti) - top o - bottom o)).

(** The address of a tile, and the order of the enumeration: by level, then
    by row, then by column. *)
Definition address (t : Tile) : Z * Z * Z := (Level t, Row t, Col t).


(** The grid entry of a level, and the addresses the three nested loops of
    [Iter] run through, in the order the loops produce them. *)
Definition gridOf (dz : DeepZoomGenerator) (level : Z) : Point :=
  match DZ.Level dz level with
  | Ok grid => grid
  | _ => Point_zero
  end.

Definition addresses (dz : DeepZoomGenerator) : list (Z * Z * Z) :=
  flat_map (fun level =>
    flat_map (fun row =>
      map (fun col => (level, row, col)) (upto (X (gridOf dz level))))
      (upto (Y (gridOf dz level))))
    (upto (DZ.LevelsCount dz)).

(** What the producer sends for an address: the tile of the lookup, or the
    zero tile when the lookup returns an error. *)
Definition sentAt (dz : DeepZoomGenerator) (a : Z * Z * Z) : Tile :=
  let '(level, row, col) := a in
  match DZ.Tile dz level col row with
  | Ok tile => tile
  | _ => Tile_zero
  end.


(** ** Generators used as examples *)

Definition orElse {A : Type} (r : result A) (default : A) : A :=
  match r with
  | Ok a => a
  | _ => default
  end.

Definition zeroGenerator : DeepZoomGenerator :=
  mkDeepZoomGenerator (slideOf [] []) 0 0 false [] [] Point_zero [] [].

(** One native level of 1024x1024, tile size 512, overlap 1. *)
Definition overlapScenario : DeepZoomGenerator :=
  orElse (NewDeepZoomGenerator (slideOf [(1024, 1024, 1%Q)] []) 512 1 false)
         zeroGenerator.

(** Two native levels, 1000x1000 and 500x500 at downsample 2, tile size 256,
    no overlap. *)
Definition twoLevelScenario : DeepZoomGenerator :=
  orElse (NewDeepZoomGenerator
            (slideOf [(1000, 1000, 1%Q); (500, 500, 2%Q)] []) 256 0 false)
         zeroGenerator.

(** A slide of 1000x1000 with a second level of 500x500, whose declared
    bounds are the 500x500 region at (100, 100). *)
Definition boundedSlide : WSI :=
  slideOf [(1000, 1000, 1%Q); (500, 500, 2%Q)]
          [(PropertyBoundsX, "100"%string); (PropertyBoundsY, "100"%string);
           (PropertyBoundsWidth, "500"%string); (PropertyBoundsHeight, "500"%string)].

(** A slide of 1000x1000 whose bounds-x is not a number and whose bounds-y
    is absent. *)
Definition garbledSlide : WSI :=
  slideOf [(1000, 1000, 1%Q)] [(PropertyBoundsX, "12px"%string)].

(** ** argb2rgba.go *)

(** The byte order of the machine, as [endian.NativeEndianness] of the
    go-endian package reports it. *)
Inductive Endianness : Type :=
| Big
| Little.

(** The package variables [cb], [cr], [cg] and [ca]: the position of each
    channel in a pixel of four bytes. *)
Record channels : Type := mkChannels {
  cb : Z;
  cr : Z;
  cg : Z;
  ca : Z
}.

(** [init] sets the positions once, from the byte order. *)
Definition init (endianness : Endianness) : channels :=
  match endianness with
  | Big => {| ca := 0; cr := 1; cg := 2; cb := 3 |}
  | _ => {| cb := 0; cg := 1; cr := 2; ca := 3 |}
  end.

(** [x & 255] on a byte. *)
Definition and255 (x : Byte.byte) : Byte.byte :=
  match Strings.Byte.of_N (N.land (Strings.Byte.to_N x) 255) with
  | Some y => y
  | None => Byte.x00
  end.

(** [argb2rgba] rewrites [data] in place, four bytes at a time: [buff.Next(4)]
    is a window on [data], and the loop leaves when fewer than four bytes
    remain.  The value is the content of [data] afterwards. *)
Fixpoint argb2rgba (ch : channels) (data : list Byte.byte) : result (list Byte.byte) :=
  match data with
  | n0 :: n1 :: n2 :: n3 :: rest =>
      let nxt := [n0; n1; n2; n3] in
      a <- index nxt (ca ch) ;;
      r <- index nxt (cr ch) ;;
      g <- index nxt (cg ch) ;;
      b <- index nxt (cb ch) ;;
      rest' <- argb2rgba ch rest ;;
      Ok (and255 r :: and255 g :: and255 b :: and255 a :: rest')
  | _ => Ok data
  end.

(** ** reverse, as the loop of helpers.go *)

(** [s[i] = v]: an index out of range panics. *)
Definition assign {A : Type} (s : list A) (i : Z) (v : A) : result (list A) :=
  if (i <? 0) || (len s <=? i) then Panic
  else Ok (firstn (Z.to_nat i) s ++ v :: skipn (S (Z.to_nat i)) s).

(** A loop that threads a state through its passes. *)
Fixpoint foldM {A S : Type} (body : S -> A -> result S) (l : list A) (s : S) : result S :=
  match l with
  | [] => Ok s
  | a :: l' => s' <- body s a ;; foldM body l' s'
  end.

(** [for i := len(a)/2 - 1; i >= 0; i-- { opp := len(a) - 1 - i;
    a[i], a[opp] = a[opp], a[i] }]: both operands are read before either
    element is written. *)
Definition reverseInPlace {A : Type} (a : list A) : result (list A) :=
  foldM (fun a i =>
           let opp := len a - 1 - i in
           x <- index a opp ;;
           y <- index a i ;;
           a1 <- assign a i x ;;
           assign a1 opp y)
        (rev (upto (Z.quot (len a) 2))) a.

(** ** The property lookup of the binding *)

(** The second part of argb2rgba.go holds the binding itself.  Its
    [PropertyValue] converts the C string it gets, a null pointer giving the
    empty string, and its [PropertyValueWithDefault] falls back to the
    default on an empty value, which covers the absent property. *)
Module Binding.

Definition PropertyValue (slide : WSI) (propName : string) : string :=
  match Properties slide propName with
  | Some v => v
  | None => EmptyString
  end.

Definition PropertyValueWithDefault (slide : WSI) (name defaultValue : string) : string :=
  let v := PropertyValue slide name in
  if negb (String.eqb v EmptyString) then v else defaultValue.

End Binding.

(** ** Further derived notions *)

(** The dimensions of level 0, as a point. *)
Definition level0Dimensions (slide : WSI) : Point :=
  let '(w, h) := LevelDimensions slide 0 in mkPoint w h.

(** The reordering of one pixel after the other, as a plain function. *)
Fixpoint reorder (e : Endianness) (data : list Byte.byte) : list Byte.byte :=
  match data with
  | n0 :: n1 :: n2 :: n3 :: rest =>
      match e with
      | Big => n1 :: n2 :: n3 :: n0 :: reorder e rest
      | Little => n2 :: n1 :: n0 :: n3 :: reorder e rest
      end
  | _ => data
  end.

(** The value of a sequence of decimal digits read after [acc]. *)
Fixpoint uint_value (d : Decimal.uint) (acc : Z) : Z :=
  match d with
  | Decimal.Nil => acc
  | Decimal.D0 l => uint_value l (10 * acc + 0)
  | Decimal.D1 l => uint_value l (10 * acc + 1)
  | Decimal.D2 l => uint_value l (10 * acc + 2)
  | Decimal.D3 l => uint_value l (10 * acc + 3)
  | Decimal.D4 l => uint_value l (10 * acc + 4)
  | Decimal.D5 l => uint_value l (10 * acc + 5)
  | Decimal.D6 l => uint_value l (10 * acc + 6)
  | Decimal.D7 l => uint_value l (10 * acc + 7)
  | Decimal.D8 l => uint_value l (10 * acc + 8)
  | Decimal.D9 l => uint_value l (10 * acc + 9)
  end.

(** * Properties *)

(** ** The pyramid level builder *)

Lemma levelsLoop_descends (z : Point) (pre : list Point) :
  exists l, levelsLoop z (pre ++ [z]) = pre ++ z :: l /\ descends (z :: l).
Proof.
  remember (pre ++ [z]) as acc eqn:Hacc. revert pre Hacc.
  funelim (levelsLoop z acc); intros pre Hacc; subst.
  - exists []. split; [reflexivity | now constructor].
  - match goal with
    | IH : forall pre0, _ = pre0 ++ [halve ?z] -> _ |- _ =>
        destruct (IH (pre ++ [z]) eq_refl) as (l & El & Dl);
        exists (halve z :: l)
    end.
    split.
    + rewrite El, <- app_assoc. reflexivity.
    + now constructor.
Qed.

Lemma getDeepZoomLevels_descends (z : Point) :
  exists l, getDeepZoomLevels z = rev (z :: l) /\ descends (z :: l).
Proof.
  destruct (levelsLoop_descends z []) as (l & El & Dl).
  exists l. split; [|exact Dl].
  unfold getDeepZoomLevels, reverse. cbn [app] in El. now rewrite El.
Qed.



Lemma descends_positive (l : list Point) :
  descends l ->
  forall z l', l = z :: l' -> 1 <= X z -> 1 <= Y z ->
  Forall (fun d => 1 <= X d /\ 1 <= Y d) l.
Proof.
  induction 1 as [z0 Hz | z0 l Hz Hd IH]; intros z l' E Hx Hy;
    injection E as <- <-.
  - repeat constructor; assumption.
  - constructor; [now split|].
    eapply IH; [reflexivity | |]; rewrite halve_spec; cbn [X Y]; lia.
Qed.





(** The chain of the scenario of the specification. *)
Example levels_1000 :
  map X (getDeepZoomLevels (mkPoint 1000 1000))
  = [1; 2; 4; 8; 16; 32; 63; 125; 250; 500; 1000].
Proof. vm_compute. reflexivity. Qed.

(** ** The tile grid builder *)

Lemma tileCount_spec (tileSize zLim : Z) :
  0 < tileSize -> tileCount tileSize zLim = (zLim + tileSize - 1) / tileSize.
Proof.
  intros H. unfold tileCount, F64.Ceil.
  destruct tileSize as [|b|b]; try lia.
  now rewrite Qceiling_div, int_float64.
Qed.

Lemma tileCount_bounds (tileSize zLim : Z) :
  0 < tileSize ->
  zLim <= tileCount tileSize zLim * tileSize
  /\ (tileCount tileSize zLim - 1) * tileSize < zLim.
Proof.
  intros H. rewrite tileCount_spec by assumption.
  pose proof (Z.div_mod (zLim + tileSize - 1) tileSize ltac:(lia)).
  pose proof (Z.mod_pos_bound (zLim + tileSize - 1) tileSize H).
  nia.
Qed.




(** The grid of the 1000x1000 tier at tile size 512 is 2x2. *)
Example grid_1000 :
  getDeepZoomTileLevels 512 [mkPoint 1000 1000] = [mkPoint 2 2].
Proof. vm_compute. reflexivity. Qed.

(** ** Slices, loops and results *)

Lemma index_Ok {A : Type} (s : list A) (i : Z) (a : A) :
  index s i = Ok a <-> 0 <= i /\ nth_error s (Z.to_nat i) = Some a.
Proof.
  unfold index. destruct (i <? 0) eqn:E.
  - apply Z.ltb_lt in E. split; [discriminate | lia].
  - apply Z.ltb_ge in E. destruct (nth_error s (Z.to_nat i)) as [x|].
    + split; [intros [= ->]; now split | intros [_ [= ->]]; reflexivity].
    + split; [discriminate | intros [_ H]; discriminate].
Qed.

Lemma index_range {A : Type} (s : list A) (i : Z) (a : A) :
  index s i = Ok a -> 0 <= i < len s.
Proof.
  intros H. apply index_Ok in H as [H0 H].
  assert (Hlt : (Z.to_nat i < List.length s)%nat)
    by (apply nth_error_Some; congruence).
  unfold len. lia.
Qed.

Lemma index_in_range {A : Type} (s : list A) (i : Z) :
  0 <= i < len s -> exists a, index s i = Ok a.
Proof.
  intros H. unfold len in H.
  destruct (nth_error s (Z.to_nat i)) as [a|] eqn:E.
  - exists a. apply index_Ok. split; [lia | assumption].
  - apply nth_error_None in E. lia.
Qed.

Lemma index_not_Err {A : Type} (s : list A) (i : Z) (e : error) :
  index s i <> Err e.
Proof.
  unfold index. destruct (i <? 0); [discriminate|].
  destruct (nth_error s (Z.to_nat i)); discriminate.
Qed.

Lemma index_map {A B : Type} (f : A -> B) (s : list A) (i : Z) (a : A) :
  index s i = Ok a -> index (map f s) i = Ok (f a).
Proof.
  intros H. apply index_Ok in H as [H0 H]. apply index_Ok.
  split; [assumption|]. now rewrite nth_error_map, H.
Qed.

Lemma In_upto (n i : Z) : In i (upto n) <-> 0 <= i < n.
Proof.
  unfold upto. rewrite in_map_iff. split.
  - intros (k & <- & Hk). apply in_seq in Hk. lia.
  - intros H. exists (Z.to_nat i). split; [lia|]. apply in_seq. lia.
Qed.


Lemma upto_nonpos (n : Z) : n <= 0 -> upto n = [].
Proof.
  intros H. unfold upto. now replace (Z.to_nat n) with 0%nat by lia.
Qed.


(** A loop whose every pass returns is the concatenation of its passes. *)
Lemma each_Ok {A B : Type} (l : list A) (body : A -> result (list B))
    (f : A -> list B) :
  (forall a, In a l -> body a = Ok (f a)) ->
  DZ.each l body = Ok (flat_map f l).
Proof.
  induction l as [|a l IH]; intros H; cbn; [reflexivity|].
  rewrite (H a (or_introl eq_refl)). cbn.
  rewrite IH by (intros; apply H; now right). reflexivity.
Qed.

(** ** The tile lookup *)

Lemma LevelsCount_levels (dz : DeepZoomGenerator) :
  consistent dz ->
  DZ.LevelsCount dz = len (deepZoomLevels dz)
  /\ DZ.LevelsCount dz = len (deepZoomTileLevels dz).
Proof.
  intros [Hg Hd]. unfold DZ.LevelsCount, len.
  rewrite Hg. unfold getDeepZoomTileLevels. rewrite length_map. lia.
Qed.

(** On a consistent generator a level below the level count has its three
    slice entries, and the lookup returns the geometry computed from them. *)
Lemma tileInfo_consistent (dz : DeepZoomGenerator) (dzLevel col row : Z) :
  consistent dz ->
  0 <= dzLevel < DZ.LevelsCount dz -> 0 <= col -> 0 <= row ->
  exists level zDim,
    index (downsamples dz) dzLevel = Ok level
    /\ index (deepZoomLevels dz) dzLevel = Ok zDim
    /\ DZ.Level dz dzLevel
       = Ok (mkPoint (tileCount (tileSize dz) (X zDim)) (tileCount (tileSize dz) (Y zDim)))
    /\ DZ.tileInfo dz dzLevel col row
       = Ok (DZ.tileGeometry dz level
               (mkPoint (tileCount (tileSize dz) (X zDim)) (tileCount (tileSize dz) (Y zDim)))
               zDim col row).
Proof.
  intros Hc Hl Hcol Hrow.
  destruct (LevelsCount_levels dz Hc) as [E1 E2].
  destruct (index_in_range (downsamples dz) dzLevel Hl) as [level Hlevel].
  destruct (index_in_range (deepZoomLevels dz) dzLevel ltac:(lia)) as [zDim HzDim].
  assert (Hgrid : DZ.Level dz dzLevel
                  = Ok (mkPoint (tileCount (tileSize dz) (X zDim))
                                (tileCount (tileSize dz) (Y zDim)))).
  { unfold DZ.Level. rewrite (consistent_grid dz Hc).
    unfold getDeepZoomTileLevels. now apply index_map with (a := zDim). }
  exists level, zDim. repeat split; try assumption.
  unfold DZ.tileInfo. unfold DZ.LevelsCount in Hl.
  replace (dzLevel <? 0) with false by (symmetry; apply Z.ltb_ge; lia).
  replace (dzLevel >? len (downsamples dz)) with false
    by (symmetry; rewrite Z.gtb_ltb; apply Z.ltb_ge; lia).
  replace (col <? 0) with false by (symmetry; apply Z.ltb_ge; lia).
  replace (row <? 0) with false by (symmetry; apply Z.ltb_ge; lia).
  cbn [orb]. rewrite Hlevel, Hgrid, HzDim. reflexivity.
Qed.

(** The error branches of the lookup, read off its two guards. *)
Lemma tileInfo_Err (dz : DeepZoomGenerator) (dzLevel col row : Z) (e : error) :
  DZ.tileInfo dz dzLevel col row = Err e ->
  (e = InvalidLevel /\ (dzLevel < 0 \/ dzLevel > len (downsamples dz)))
  \/ (e = InvalidAddress /\ 0 <= dzLevel <= len (downsamples dz)
      /\ (col < 0 \/ row < 0)).
Proof.
  unfold DZ.tileInfo.
  destruct (dzLevel <? 0) eqn:E1; cbn [orb].
  { intros [= <-]. left. apply Z.ltb_lt in E1. split; [reflexivity | lia]. }
  destruct (dzLevel >? len (downsamples dz)) eqn:E2.
  { intros [= <-]. left. rewrite Z.gtb_ltb in E2. apply Z.ltb_lt in E2.
    split; [reflexivity | lia]. }
  apply Z.ltb_ge in E1. rewrite Z.gtb_ltb in E2. apply Z.ltb_ge in E2.
  destruct (col <? 0) eqn:E3; cbn [orb].
  { intros [= <-]. right. apply Z.ltb_lt in E3. repeat split; lia. }
  destruct (row <? 0) eqn:E4.
  { intros [= <-]. right. apply Z.ltb_lt in E4. repeat split; lia. }
  intros H. exfalso.
  destruct (index (downsamples dz) dzLevel) eqn:Ea; cbn in H;
    [| now apply index_not_Err in Ea | discriminate].
  unfold DZ.Level in H.
  destruct (index (deepZoomTileLevels dz) dzLevel) eqn:Eb; cbn in H;
    [| now apply index_not_Err in Eb | discriminate].
  destruct (index (deepZoomLevels dz) dzLevel) eqn:Ec; cbn in H;
    [discriminate | now apply index_not_Err in Ec | discriminate].
Qed.

(** C2 (the code at the failing input). A level index equal to the level
    count passes the guard [dzLevel > len(dz.downsamples)]; the lookup then
    indexes the downsamples one past their end and panics instead of
    returning the invalid-level error. *)
Theorem tileInfo_levelCount_panics (dz : DeepZoomGenerator) (col row : Z) :
  0 <= col -> 0 <= row ->
  DZ.tileInfo dz (DZ.LevelsCount dz) col row = Panic.
Proof.
  intros Hc Hr. unfold DZ.tileInfo, DZ.LevelsCount.
  assert (H0 : 0 <= len (downsamples dz)) by (unfold len; lia).
  replace (len (downsamples dz) <? 0) with false by (symmetry; apply Z.ltb_ge; lia).
  replace (len (downsamples dz) >? len (downsamples dz)) with false
    by (symmetry; rewrite Z.gtb_ltb; apply Z.ltb_irrefl).
  replace (col <? 0) with false by (symmetry; apply Z.ltb_ge; lia).
  replace (row <? 0) with false by (symmetry; apply Z.ltb_ge; lia).
  cbn [orb].
  destruct (index (downsamples dz) (len (downsamples dz))) eqn:E; cbn.
  - apply index_range in E. lia.
  - now apply index_not_Err in E.
  - reflexivity.
Qed.

Lemma tileInfo_levelCount_panics_witness :
  DZ.tileInfo twoLevelScenario (DZ.LevelsCount twoLevelScenario) 0 0 = Panic.
Proof.
  apply (tileInfo_levelCount_panics twoLevelScenario 0 0); lia.
Defined.

(** What the constructor establishes. *)
Lemma NewDeepZoomGenerator_Ok (slide : WSI) (ts ov : Z) (lb : bool)
    (dz : DeepZoomGenerator) :
  NewDeepZoomGenerator slide ts ov lb = Ok dz ->
  consistent dz /\ tileSize dz = ts /\ overlap dz = ov
  /\ level0Offset dz = getLevel0Offset slide lb
  /\ exists base, index (levels dz) 0 = Ok base
                  /\ getLevelDimensions slide lb = Ok (levels dz)
                  /\ deepZoomLevels dz = getDeepZoomLevels base.
Proof.
  unfold NewDeepZoomGenerator.
  destruct (getLevelDimensions slide lb) as [lv| |] eqn:El; cbn [bind]; try discriminate.
  destruct (index lv 0) as [base| |] eqn:Eb; cbn [bind]; try discriminate.
  intros H. injection H as H. subst dz.
  cbn [tileSize overlap level0Offset levels deepZoomLevels]. repeat split.
  - cbn [downsamples deepZoomLevels deepZoomTileLevels].
    unfold generateDownsamples, getDeepZoomTileLevels, upto, len.
    rewrite !length_map, length_seq, Nat2Z.id. reflexivity.
  - exists base. now repeat split.
Qed.

Lemma consistent_overlapScenario : consistent overlapScenario.
Proof. split; vm_compute; reflexivity. Qed.

Lemma consistent_twoLevelScenario : consistent twoLevelScenario.
Proof. split; vm_compute; reflexivity. Qed.

(** C9. For the level, row and column values the loops of [Iter] run
    through, the lookup returns no error, whatever the generator; on a
    consistent generator it returns the tile of that address. *)
Theorem Iter_lookup_never_errs (dz : DeepZoomGenerator) (level col row : Z)
    (grid : Point) :
  0 <= level < DZ.LevelsCount dz ->
  DZ.Level dz level = Ok grid ->
  0 <= row < Y grid -> 0 <= col < X grid ->
  (forall e, DZ.tileInfo dz level col row <> Err e)
  /\ (forall e, DZ.Tile dz level col row <> Err e)
  /\ (consistent dz ->
      exists ti, DZ.Tile dz level col row = Ok (mkTile level row col ti)).
Proof.
  intros Hl Hg Hr Hc.
  assert (He : forall e, DZ.tileInfo dz level col row <> Err e).
  { intros e H. unfold DZ.LevelsCount in Hl.
    apply tileInfo_Err in H as [[_ H] | (_ & _ & H)]; lia. }
  split; [exact He|]. split.
  - intros e H. unfold DZ.Tile in H.
    destruct (DZ.tileInfo dz level col row) eqn:E; cbn in H;
      [discriminate | now apply (He e0) | discriminate].
  - intros Hcons.
    destruct (tileInfo_consistent dz level col row Hcons Hl) as (lv & zDim & _ & _ & _ & E);
      try lia.
    eexists. unfold DZ.Tile. rewrite E. reflexivity.
Qed.

Lemma Iter_lookup_never_errs_witness :
  (forall e, DZ.tileInfo twoLevelScenario 10 3 2 <> Err e)
  /\ (forall e, DZ.Tile twoLevelScenario 10 3 2 <> Err e)
  /\ (consistent twoLevelScenario ->
      exists ti, DZ.Tile twoLevelScenario 10 3 2 = Ok (mkTile 10 2 3 ti)).
Proof.
  apply (Iter_lookup_never_errs twoLevelScenario 10 3 2 (mkPoint 4 4));
    [vm_compute; split; [discriminate | reflexivity]
    | vm_compute; reflexivity
    | cbn; lia
    | cbn; lia].
Defined.

(** ** Overlap and output size *)





(** ** Unpadded tile sizes add up to the level *)





Lemma flat_map_unit {A B : Type} (f : A -> B) (l : list A) :
  flat_map (fun a => [f a]) l = map f l.
Proof. induction l as [|a l IH]; cbn; [reflexivity | now rewrite IH]. Qed.



(** The widths of the four columns of the 1000-wide tier at tile size 256. *)
Example unpadded_widths_1000 :
  DZ.each (upto 4) (fun c => p <- unpadded twoLevelScenario 10 c 0 ;; Ok [X p])
  = Ok [256; 256; 256; 232].
Proof. vm_compute. reflexivity. Qed.

(** ** The tile enumeration *)

Section SortedLists.

Context {A B : Type} (RA : A -> A -> Prop) (RB : B -> B -> Prop).





End SortedLists.



Lemma map_flat_map {A B C : Type} (g : B -> C) (f : A -> list B) (l : list A) :
  map g (flat_map f l) = flat_map (fun a => map g (f a)) l.
Proof.
  induction l as [|a l IH]; cbn; [reflexivity|]. now rewrite map_app, IH.
Qed.

Lemma flat_map_ext_In {A B : Type} (f g : A -> list B) (l : list A) :
  (forall a, In a l -> f a = g a) -> flat_map f l = flat_map g l.
Proof.
  induction l as [|a l IH]; intros H; cbn; [reflexivity|].
  rewrite (H a (or_introl eq_refl)), IH; [reflexivity|].
  intros; apply H; now right.
Qed.



Lemma fold_left_sum {A : Type} (h : A -> Z) (l : list A) (acc : Z) :
  fold_left (fun sum a => sum + h a) l acc = acc + sumZ (map h l).
Proof.
  revert acc. induction l as [|a l IH]; intros acc; cbn; [lia|].
  rewrite IH. unfold sumZ. lia.
Qed.


Lemma Level_consistent (dz : DeepZoomGenerator) (level : Z) :
  consistent dz -> 0 <= level < DZ.LevelsCount dz ->
  exists zDim, index (deepZoomLevels dz) level = Ok zDim
    /\ DZ.Level dz level
       = Ok (mkPoint (tileCount (tileSize dz) (X zDim)) (tileCount (tileSize dz) (Y zDim))).
Proof.
  intros Hc Hl.
  destruct (tileInfo_consistent dz level 0 0 Hc Hl ltac:(lia) ltac:(lia))
    as (_ & zDim & _ & H1 & H2 & _).
  now exists zDim.
Qed.

Lemma In_addresses (dz : DeepZoomGenerator) (level row col : Z) :
  consistent dz ->
  In (level, row, col) (addresses dz)
  <-> 0 <= level < DZ.LevelsCount dz
      /\ exists grid, DZ.Level dz level = Ok grid
                      /\ 0 <= row < Y grid /\ 0 <= col < X grid.
Proof.
  intros Hc. unfold addresses. rewrite in_flat_map. split.
  - intros (l & Hl & H). apply In_upto in Hl.
    apply in_flat_map in H as (r & Hr & H). apply In_upto in Hr.
    apply in_map_iff in H as (c & E & Hcol). apply In_upto in Hcol.
    injection E as <- <- <-. split; [assumption|].
    destruct (Level_consistent dz l Hc Hl) as (zDim & _ & Hg).
    unfold gridOf in Hr, Hcol. rewrite Hg in Hr, Hcol.
    eexists. split; [exact Hg|]. now split.
  - intros (Hl & grid & Hg & Hr & Hcol). exists level.
    split; [now apply In_upto|].
    apply in_flat_map. exists row. unfold gridOf. rewrite Hg.
    split; [now apply In_upto|].
    apply in_map_iff. exists col. split; [reflexivity | now apply In_upto].
Qed.

Lemma sentAt_consistent (dz : DeepZoomGenerator) (level row col : Z) :
  consistent dz -> In (level, row, col) (addresses dz) ->
  DZ.Tile dz level col row = Ok (sentAt dz (level, row, col))
  /\ address (sentAt dz (level, row, col)) = (level, row, col).
Proof.
  intros Hc Hin. apply In_addresses in Hin as (Hl & grid & Hg & Hr & Hcol); [|assumption].
  destruct (tileInfo_consistent dz level col row Hc Hl ltac:(lia) ltac:(lia))
    as (lv & zDim & _ & _ & _ & Hti).
  unfold sentAt, DZ.Tile. rewrite Hti. cbn [bind]. now split.
Qed.

(** The uncancelled producer sends the tile of every address of the loops,
    in the order of the loops. *)
Lemma Iter_sends (dz : DeepZoomGenerator) :
  consistent dz -> DZ.Iter dz = Ok (map (sentAt dz) (addresses dz)).
Proof.
  intros Hc. unfold DZ.Iter, addresses.
  rewrite map_flat_map. apply each_Ok.
  intros level Hl. pose proof Hl as Hl'. apply In_upto in Hl'.
  destruct (Level_consistent dz level Hc Hl') as (zDim & _ & Hg).
  assert (Egrid : gridOf dz level
                  = mkPoint (tileCount (tileSize dz) (X zDim))
                            (tileCount (tileSize dz) (Y zDim)))
    by (unfold gridOf; now rewrite Hg).
  rewrite Hg, Egrid. cbn [bind X Y].
  rewrite map_flat_map. apply each_Ok.
  intros row Hr. rewrite map_map, <- flat_map_unit. apply each_Ok.
  intros col Hcol.
  assert (Hin : In (level, row, col) (addresses dz)).
  { apply In_addresses; [assumption|]. apply In_upto in Hr, Hcol.
    split; [assumption|]. eexists. split; [exact Hg|]. now split. }
  destruct (sentAt_consistent dz level row col Hc Hin) as [-> _]. reflexivity.
Qed.








(** The two coarsest levels of the scenario have one tile each; the level of
    2x2 pixels comes after the level of 1x1. *)
Example Iter_first_addresses :
  (tiles <- DZ.Iter twoLevelScenario ;; Ok (firstn 2 (map address tiles), len tiles))
  = Ok ([(0, 0, 0); (1, 0, 0)], 29).
Proof. vm_compute. reflexivity. Qed.

Lemma getDeepZoomLevels_positive (base : Point) :
  1 <= X base -> 1 <= Y base ->
  Forall (fun d => 1 <= X d /\ 1 <= Y d) (getDeepZoomLevels base).
Proof.
  intros Hx Hy. destruct (getDeepZoomLevels_descends base) as (l & -> & Dl).
  apply Forall_rev. exact (descends_positive _ Dl base l eq_refl Hx Hy).
Qed.

(** ** The source rectangle *)





(** The tile (level 9, column 1, row 1) of the two-level scenario: it is
    read from native level 1, of 500x500 pixels, at the level-0 location
    (512, 512) with size 244x244. *)
Example tileInfo_twoLevel_9_1_1 :
  DZ.tileInfo twoLevelScenario 9 1 1
  = Ok (mkTileInfo (mkPoint 512 512) (mkPoint 244 244) (mkPoint 244 244) 1).
Proof. vm_compute. reflexivity. Qed.


(** ** Bounds restriction *)

(** C1 (the code at the failing input). With bounds of 500x500 declared on a
    slide of 1000x1000, the ratios are computed by integer division,
    500 / 1000 = 0, so every effective dimension is 0: the base is 0x0, the
    pyramid has the single level 0x0 and no tile. *)
Theorem getLevelDimensions_bounds_collapse :
  getLevelDimensions boundedSlide false = Ok [mkPoint 1000 1000; mkPoint 500 500]
  /\ getLevelDimensions boundedSlide true = Ok [mkPoint 0 0; mkPoint 0 0]
  /\ (dz <- NewDeepZoomGenerator boundedSlide 512 0 true ;;
      Ok (deepZoomLevels dz, deepZoomTileLevels dz, DZ.TileCount dz))
     = Ok ([mkPoint 0 0], [mkPoint 0 0], 0).
Proof. vm_compute. repeat split; reflexivity. Qed.



Lemma getLevelDimensions_limitBounds_Ok (slide : WSI) :
  1 <= LevelCount slide ->
  fst (LevelDimensions slide 0) <> 0 -> snd (LevelDimensions slide 0) <> 0 ->
  exists d ds, getLevelDimensions slide true = Ok (d :: ds).
Proof.
  intros Hn Hw Hh. unfold getLevelDimensions.
  replace (LevelCount slide <? 0) with false by (symmetry; apply Z.ltb_ge; lia).
  cbn [negb]. unfold nativeDimensions, upto.
  destruct (Z.to_nat (LevelCount slide)) as [|k] eqn:Ek; [lia|].
  cbn [seq map]. change (Z.of_nat 0) with 0.
  destruct (LevelDimensions slide 0) as [w h]. cbn [fst snd] in Hw, Hh.
  unfold index at 1. cbn [Z.ltb Z.compare Z.to_nat nth_error bind X Y].
  unfold idiv.
  replace (w =? 0) with false by (symmetry; now apply Z.eqb_neq).
  replace (h =? 0) with false by (symmetry; now apply Z.eqb_neq).
  cbn [bind map]. eexists _, _. reflexivity.
Qed.



(** The conversions behind the two scenarios. *)
Example Atoi_examples :
  strconv.Atoi "12px" = (0, true)
  /\ strconv.Atoi EmptyString = (0, true)
  /\ strconv.Atoi "-12" = (-12, false)
  /\ strconv.Atoi "500" = (500, false)
  /\ strconv.Itoa 1000 = "1000"%string.
Proof. vm_compute. repeat split; reflexivity. Qed.

(** ** What the constructor hands to the queries *)

(** A generator built on a base of at least 1x1 with a positive tile size
    is consistent and all its levels are at least 1x1. *)
Lemma NewDeepZoomGenerator_levels (slide : WSI) (ts ov : Z) (lb : bool)
    (dz : DeepZoomGenerator) (base : Point) :
  NewDeepZoomGenerator slide ts ov lb = Ok dz ->
  index (levels dz) 0 = Ok base -> 1 <= X base -> 1 <= Y base ->
  consistent dz /\ tileSize dz = ts
  /\ Forall (fun d => 1 <= X d /\ 1 <= Y d) (deepZoomLevels dz).
Proof.
  intros Hnew Hbase Hx Hy.
  destruct (NewDeepZoomGenerator_Ok _ _ _ _ _ Hnew)
    as (Hc & Hts & _ & _ & base' & Hbase' & _ & Hlv).
  rewrite Hbase in Hbase'. injection Hbase' as <-.
  split; [exact Hc|]. split; [exact Hts|].
  rewrite Hlv. now apply getDeepZoomLevels_positive.
Qed.

(** With bounds restriction the effective dimensions are the native ones
    multiplied by the truncated quotients of the declared bounds by the
    level-0 dimensions. *)
Lemma getLevelDimensions_limitBounds (slide : WSI) (dims : list Point) :
  getLevelDimensions slide true = Ok dims ->
  exists d0,
    index (nativeDimensions slide) 0 = Ok d0
    /\ dims
       = map (fun d =>
                mkPoint
                  (X d * Z.quot (mustStrToInt (PropertyValueWithDefault slide
                                   PropertyBoundsWidth (strconv.Itoa (X d0)))) (X d0))
                  (Y d * Z.quot (mustStrToInt (PropertyValueWithDefault slide
                                   PropertyBoundsHeight (strconv.Itoa (Y d0)))) (Y d0)))
             (nativeDimensions slide).
Proof.
  unfold getLevelDimensions.
  destruct (LevelCount slide <? 0); [discriminate|]. cbn [negb].
  destruct (index (nativeDimensions slide) 0) as [d0| |]; cbn [bind]; try discriminate.
  unfold idiv.
  destruct (X d0 =? 0); cbn [bind]; [discriminate|].
  destruct (Y d0 =? 0); cbn [bind]; [discriminate|].
  intros [= <-]. now exists d0.
Qed.

(** Declared bounds narrower than level 0 make every effective width 0. *)
Lemma getLevelDimensions_narrow_bounds (slide : WSI) (dims : list Point) (d0 : Point) :
  getLevelDimensions slide true = Ok dims ->
  index (nativeDimensions slide) 0 = Ok d0 ->
  0 <= mustStrToInt (PropertyValueWithDefault slide PropertyBoundsWidth
                       (strconv.Itoa (X d0))) < X d0 ->
  Forall (fun d => X d = 0) dims.
Proof.
  intros Hdims Hd0 Hb.
  apply getLevelDimensions_limitBounds in Hdims as (d0' & Hd0' & ->).
  rewrite Hd0 in Hd0'. injection Hd0' as <-.
  apply Forall_map, Forall_forall. intros d _. cbn [X].
  rewrite Z.quot_small by assumption. lia.
Qed.

(** * Further properties of the pyramid *)

(** ** The number of levels *)








(** ** The dimensions of each level *)

Lemma halve_positive (z : Point) :
  1 <= X z -> 1 <= Y z ->
  halve z = mkPoint ((X z + 2 - 1) / 2) ((Y z + 2 - 1) / 2)
  /\ 1 <= X (halve z) /\ 1 <= Y (halve z).
Proof.
  intros Hx Hy. rewrite halve_spec. cbn [X Y].
  pose proof (Z.div_le_lower_bound (X z + 1) 2 1 ltac:(lia) ltac:(lia)).
  pose proof (Z.div_le_lower_bound (Y z + 1) 2 1 ltac:(lia) ltac:(lia)).
  replace (X z + 2 - 1) with (X z + 1) by lia.
  replace (Y z + 2 - 1) with (Y z + 1) by lia.
  repeat split; try lia. f_equal; lia.
Qed.





(** * Further properties of the tile lookup *)

(** ** Which error, and when *)

Lemma Tile_Err_tileInfo (dz : DeepZoomGenerator) (level col row : Z) (e : error) :
  DZ.Tile dz level col row = Err e <-> DZ.tileInfo dz level col row = Err e.
Proof.
  unfold DZ.Tile. destruct (DZ.tileInfo dz level col row); cbn [bind];
    split; intros H; try discriminate H; injection H as ->; reflexivity.
Qed.

(** X3. The lookup reports the level before the address: [Tile] returns the
    invalid-level error exactly when the level is negative or above the level
    count, whatever the column and row, and the invalid-address error exactly
    when the level is between 0 and the level count (included) and the column
    or the row is negative. *)
Theorem Tile_errors (dz : DeepZoomGenerator) (level col row : Z) :
  (DZ.Tile dz level col row = Err InvalidLevel
   <-> level < 0 \/ level > DZ.LevelsCount dz)
  /\ (DZ.Tile dz level col row = Err InvalidAddress
      <-> 0 <= level <= DZ.LevelsCount dz /\ (col < 0 \/ row < 0)).
Proof.
  rewrite !Tile_Err_tileInfo. unfold DZ.LevelsCount. split; split.
  - intros H. apply tileInfo_Err in H as [[_ H] | [H _]]; [exact H | discriminate].
  - intros H. unfold DZ.tileInfo.
    replace ((level <? 0) || (level >? len (downsamples dz))) with true; [reflexivity|].
    symmetry. apply orb_true_iff. rewrite Z.gtb_ltb.
    destruct H as [H|H]; [left | right]; apply Z.ltb_lt; lia.
  - intros H. apply tileInfo_Err in H as [[H _] | (_ & H)]; [discriminate | exact H].
  - intros [Hl Ha]. unfold DZ.tileInfo.
    replace (level <? 0) with false by (symmetry; apply Z.ltb_ge; lia).
    replace (level >? len (downsamples dz)) with false
      by (symmetry; rewrite Z.gtb_ltb; apply Z.ltb_ge; lia).
    cbn [orb].
    replace ((col <? 0) || (row <? 0)) with true; [reflexivity|].
    symmetry. apply orb_true_iff.
    destruct Ha as [Ha|Ha]; [left | right]; now apply Z.ltb_lt.
Qed.

(** ** Tile sizes inside and outside the grid *)







(** * Further properties of construction *)

Lemma nativeDimensions_head (slide : WSI) :
  1 <= LevelCount slide ->
  exists rest, nativeDimensions slide = level0Dimensions slide :: rest.
Proof.
  intros Hn. unfold nativeDimensions, upto, level0Dimensions.
  destruct (Z.to_nat (LevelCount slide)) as [|k] eqn:Ek; [lia|].
  cbn [seq map]. change (Z.of_nat 0) with 0. eexists. reflexivity.
Qed.

Lemma nativeDimensions_empty (slide : WSI) :
  LevelCount slide < 1 -> nativeDimensions slide = [].
Proof.
  intros Hn. unfold nativeDimensions. now rewrite upto_nonpos by lia.
Qed.




(** X8. With bounds restriction, construction succeeds exactly on the
    slides that have at least one level and a level 0 of non-zero width and
    height; on every other slide it panics: on the missing level 0, or on the
    division by the zero dimension. *)
Theorem NewDeepZoomGenerator_bounded (slide : WSI) (ts ov : Z) :
  (1 <= LevelCount slide
   /\ X (level0Dimensions slide) <> 0 /\ Y (level0Dimensions slide) <> 0 ->
   exists dz, NewDeepZoomGenerator slide ts ov true = Ok dz)
  /\ (LevelCount slide < 1
      \/ X (level0Dimensions slide) = 0 \/ Y (level0Dimensions slide) = 0 ->
      NewDeepZoomGenerator slide ts ov true = Panic).
Proof.
  split.
  - intros (Hn & Hx & Hy).
    destruct (getLevelDimensions_limitBounds_Ok slide Hn) as (d & ds & Hdims).
    + unfold level0Dimensions in Hx. now destruct (LevelDimensions slide 0).
    + unfold level0Dimensions in Hy. now destruct (LevelDimensions slide 0).
    + unfold NewDeepZoomGenerator. rewrite Hdims. cbn [bind].
      unfold index at 1. cbn [Z.ltb Z.compare Z.to_nat nth_error bind].
      eexists. reflexivity.
  - intros Hbad. unfold NewDeepZoomGenerator, getLevelDimensions.
    destruct (Z.ltb_spec (LevelCount slide) 0) as [Hneg|Hnn]; [reflexivity|].
    cbn [negb].
    destruct (Z.ltb_spec (LevelCount slide) 1) as [Hlt|Hge].
    + now rewrite nativeDimensions_empty.
    + destruct (nativeDimensions_head slide Hge) as [rest Enat].
      rewrite Enat. unfold index at 1.
      cbn [Z.ltb Z.compare Z.to_nat nth_error bind]. unfold idiv.
      destruct (X (level0Dimensions slide) =? 0) eqn:Ex; [reflexivity|]. cbn [bind].
      destruct (Y (level0Dimensions slide) =? 0) eqn:Ey; [reflexivity|].
      apply Z.eqb_neq in Ex, Ey. lia.
Qed.

Lemma NewDeepZoomGenerator_bounded_witness :
  (exists dz, NewDeepZoomGenerator boundedSlide 512 0 true = Ok dz)
  /\ NewDeepZoomGenerator (slideOf [(0, 600, 1%Q)] []) 512 0 true = Panic.
Proof.
  split.
  - apply (NewDeepZoomGenerator_bounded boundedSlide 512 0).
    vm_compute. repeat split; discriminate.
  - apply (NewDeepZoomGenerator_bounded (slideOf [(0, 600, 1%Q)] []) 512 0).
    right. left. vm_compute. reflexivity.
Defined.

(** * Further properties of the tile count and the enumeration *)


Lemma TileCount_sum (dz : DeepZoomGenerator) :
  DZ.TileCount dz = sumZ (map (fun g => X g * Y g) (deepZoomTileLevels dz)).
Proof. unfold DZ.TileCount. now rewrite fold_left_sum. Qed.



Lemma descends_bounded (l : list Point) :
  descends l ->
  forall z rest, l = z :: rest -> 1 <= X z -> 1 <= Y z ->
  forall bx by_, X z <= bx -> Y z <= by_ ->
  Forall (fun d => 1 <= X d <= bx /\ 1 <= Y d <= by_) l.
Proof.
  induction 1 as [z0 Hz | z0 l Hz Hd IH]; intros z rest E Hx Hy bx by_ Hbx Hby;
    injection E as <- <-.
  - repeat constructor; assumption.
  - constructor; [lia|].
    destruct (halve_positive z0 Hx Hy) as (Eh & Hx' & Hy').
    apply (IH (halve z0) l eq_refl Hx' Hy'); rewrite Eh; cbn [X Y].
    + pose proof (Z.div_le_upper_bound (X z0 + 2 - 1) 2 (X z0) ltac:(lia) ltac:(lia)). lia.
    + pose proof (Z.div_le_upper_bound (Y z0 + 2 - 1) 2 (Y z0) ltac:(lia) ltac:(lia)). lia.
Qed.

(** No level is larger than the base. *)
Lemma getDeepZoomLevels_bounded (base : Point) :
  1 <= X base -> 1 <= Y base ->
  Forall (fun d => 1 <= X d <= X base /\ 1 <= Y d <= Y base) (getDeepZoomLevels base).
Proof.
  intros Hx Hy. destruct (getDeepZoomLevels_descends base) as (l & -> & Dl).
  apply Forall_rev.
  apply (descends_bounded _ Dl base l eq_refl Hx Hy); lia.
Qed.

Lemma sumZ_constant {A : Type} (k : Z) (l : list A) :
  sumZ (map (fun _ => k) l) = len l * k.
Proof.
  unfold sumZ, len. induction l as [|a l IH]; cbn [map fold_right List.length]; lia.
Qed.

Lemma tileCount_one (ts z : Z) : 1 <= z <= ts -> tileCount ts z = 1.
Proof.
  intros H. pose proof (tileCount_bounds ts z ltac:(lia)). nia.
Qed.

Lemma map_address_sent (dz : DeepZoomGenerator) :
  consistent dz -> map address (map (sentAt dz) (addresses dz)) = addresses dz.
Proof.
  intros Hc. rewrite map_map. rewrite <- (map_id (addresses dz)) at 2.
  apply map_ext_in. intros [[l r] c] Hin.
  now destruct (sentAt_consistent dz l r c Hc Hin).
Qed.

(** X10. When the base is at least 1x1 and fits in one tile, every level
    of the pyramid is a single tile: the total tile count is the number of
    levels and the enumeration sends the tile (0, 0) of each level, from the
    coarsest to the finest. *)
Theorem one_tile_per_level (dz : DeepZoomGenerator) (base : Point) :
  consistent dz ->
  deepZoomLevels dz = getDeepZoomLevels base ->
  1 <= X base <= tileSize dz -> 1 <= Y base <= tileSize dz ->
  DZ.TileCount dz = DZ.LevelsCount dz
  /\ exists tiles,
       DZ.Iter dz = Ok tiles
       /\ map address tiles = map (fun level => (level, 0, 0)) (upto (DZ.LevelsCount dz)).
Proof.
  intros Hc Hdz Hx Hy.
  pose proof (getDeepZoomLevels_bounded base ltac:(lia) ltac:(lia)) as Hb.
  rewrite <- Hdz in Hb.
  assert (Hgrid : deepZoomTileLevels dz = map (fun _ => mkPoint 1 1) (deepZoomLevels dz)).
  { rewrite (consistent_grid dz Hc). unfold getDeepZoomTileLevels.
    apply map_ext_in. intros d Hin. rewrite Forall_forall in Hb.
    destruct (Hb d Hin). now rewrite !tileCount_one by lia. }
  destruct (LevelsCount_levels dz Hc) as [E1 E2].
  split.
  - rewrite TileCount_sum, Hgrid, map_map. cbn [X Y].
    rewrite sumZ_constant. lia.
  - exists (map (sentAt dz) (addresses dz)).
    split; [now apply Iter_sends|].
    rewrite map_address_sent by assumption. unfold addresses.
    rewrite <- flat_map_unit. apply flat_map_ext_In.
    intros level Hin. apply In_upto in Hin.
    destruct (Level_consistent dz level Hc Hin) as (zDim & HzDim & Hg).
    apply index_Ok in HzDim as [_ HzDim]. apply nth_error_In in HzDim.
    rewrite Forall_forall in Hb. destruct (Hb zDim HzDim).
    rewrite !tileCount_one in Hg by lia.
    unfold gridOf. rewrite Hg. reflexivity.
Qed.

Lemma one_tile_per_level_witness :
  DZ.TileCount (orElse (NewDeepZoomGenerator (slideOf [(300, 200, 1%Q)] []) 512 1 false)
                       zeroGenerator) = 10
  /\ exists tiles,
       DZ.Iter (orElse (NewDeepZoomGenerator (slideOf [(300, 200, 1%Q)] []) 512 1 false)
                       zeroGenerator) = Ok tiles
       /\ map address tiles = map (fun level => (level, 0, 0)) (upto 10).
Proof.
  apply (one_tile_per_level
           (orElse (NewDeepZoomGenerator (slideOf [(300, 200, 1%Q)] []) 512 1 false)
                   zeroGenerator)
           (mkPoint 300 200));
    [ split; vm_compute; reflexivity
    | vm_compute; reflexivity
    | vm_compute; split; discriminate
    | vm_compute; split; discriminate ].
Defined.

(** * Further properties of the source location *)










(** ** The finest level *)









(** * The pixel reordering of argb2rgba.go *)

Lemma and255_id (x : Byte.byte) : and255 x = x.
Proof. destruct x; reflexivity. Qed.

(** Induction over a buffer pixel by pixel. *)
Lemma pixels_ind {A : Type} (P : list A -> Prop) :
  (forall l, (List.length l < 4)%nat -> P l) ->
  (forall n0 n1 n2 n3 rest, P rest -> P (n0 :: n1 :: n2 :: n3 :: rest)) ->
  forall l, P l.
Proof.
  intros Hshort Hstep l.
  remember (List.length l) as n eqn:En. revert l En.
  induction n as [n IH] using lt_wf_ind. intros l En.
  destruct l as [|n0 [|n1 [|n2 [|n3 rest]]]];
    try (apply Hshort; cbn; lia).
  apply Hstep. apply (IH (List.length rest)); [subst n; cbn; lia | reflexivity].
Qed.

Lemma argb2rgba_reorder (e : Endianness) (data : list Byte.byte) :
  argb2rgba (init e) data = Ok (reorder e data).
Proof.
  induction data as [l Hl | n0 n1 n2 n3 rest IH] using pixels_ind.
  - destruct l as [|n0 [|n1 [|n2 [|n3 rest]]]]; try reflexivity. cbn in Hl. lia.
  - cbn [argb2rgba reorder]. rewrite IH.
    destruct e; cbv -[and255 reorder]; now rewrite !and255_id.
Qed.

Lemma reorder_length (e : Endianness) (data : list Byte.byte) :
  List.length (reorder e data) = List.length data.
Proof.
  induction data as [l Hl | n0 n1 n2 n3 rest IH] using pixels_ind.
  - destruct l as [|n0 [|n1 [|n2 [|n3 rest]]]]; try reflexivity. cbn in Hl. lia.
  - destruct e; cbn [reorder List.length]; now rewrite IH.
Qed.

Lemma reorder_Permutation (e : Endianness) (data : list Byte.byte) :
  Permutation data (reorder e data).
Proof.
  induction data as [l Hl | n0 n1 n2 n3 rest IH] using pixels_ind.
  - destruct l as [|n0 [|n1 [|n2 [|n3 rest]]]]; try apply Permutation_refl.
    cbn in Hl. lia.
  - destruct e; cbn [reorder].
    + change (n0 :: n1 :: n2 :: n3 :: rest) with ([n0] ++ [n1; n2; n3] ++ rest).
      change (n1 :: n2 :: n3 :: n0 :: reorder Big rest)
        with ([n1; n2; n3] ++ [n0] ++ reorder Big rest).
      rewrite !app_assoc. apply Permutation_app; [apply Permutation_app_comm | exact IH].
    + apply perm_trans with (n2 :: n0 :: n1 :: n3 :: rest).
      * change (n0 :: n1 :: n2 :: n3 :: rest) with ([n0; n1] ++ [n2] ++ n3 :: rest).
        change (n2 :: n0 :: n1 :: n3 :: rest) with ([n2] ++ [n0; n1] ++ n3 :: rest).
        rewrite !app_assoc. apply Permutation_app_tail, Permutation_app_comm.
      * apply perm_skip. apply perm_trans with (n1 :: n0 :: n3 :: rest);
          [apply perm_swap|]. now do 3 apply perm_skip.
Qed.

Lemma reorder_tail (e : Endianness) (data : list Byte.byte) (j : nat) :
  (4 * (List.length data / 4) <= j)%nat ->
  nth_error (reorder e data) j = nth_error data j.
Proof.
  revert j. induction data as [l Hl | n0 n1 n2 n3 rest IH] using pixels_ind; intros j Hj.
  - destruct l as [|n0 [|n1 [|n2 [|n3 rest]]]]; try reflexivity. cbn in Hl. lia.
  - cbn [List.length] in Hj.
    assert (E : (S (S (S (S (List.length rest)))) / 4 = S (List.length rest / 4))%nat).
    { change (S (S (S (S (List.length rest))))) with (4 + List.length rest)%nat.
      replace (4 + List.length rest)%nat with (List.length rest + 1 * 4)%nat by lia.
      rewrite Nat.div_add by lia. lia. }
    rewrite E in Hj.
    destruct j as [|[|[|[|j]]]]; try lia.
    destruct e; cbn [reorder nth_error]; apply IH; lia.
Qed.

Lemma reorder_pixel (e : Endianness) (data : list Byte.byte) (i : nat) :
  (4 * i + 3 < List.length data)%nat ->
  nth_error (reorder e data) (4 * i) = nth_error data (4 * i + Z.to_nat (cr (init e)))
  /\ nth_error (reorder e data) (4 * i + 1)
     = nth_error data (4 * i + Z.to_nat (cg (init e)))
  /\ nth_error (reorder e data) (4 * i + 2)
     = nth_error data (4 * i + Z.to_nat (cb (init e)))
  /\ nth_error (reorder e data) (4 * i + 3)
     = nth_error data (4 * i + Z.to_nat (ca (init e))).
Proof.
  revert i. induction data as [l Hl | n0 n1 n2 n3 rest IH] using pixels_ind; intros i Hi.
  - lia.
  - destruct i as [|i].
    + destruct e; cbn; repeat split; reflexivity.
    + cbn [List.length] in Hi. specialize (IH i ltac:(lia)).
      replace (4 * S i)%nat with (S (S (S (S (4 * i))))) by lia.
      destruct e; cbn [reorder plus nth_error]; exact IH.
Qed.

(** X13. On either byte order [argb2rgba] does not panic; it keeps the
    length of the buffer and its bytes up to their order, and leaves the
    bytes of a trailing incomplete pixel where they are. *)
Theorem argb2rgba_preserves (e : Endianness) (data : list Byte.byte) :
  exists out,
    argb2rgba (init e) data = Ok out
    /\ List.length out = List.length data
    /\ Permutation data out
    /\ forall j, (4 * (List.length data / 4) <= j)%nat ->
                 nth_error out j = nth_error data j.
Proof.
  exists (reorder e data). split; [apply argb2rgba_reorder|].
  split; [apply reorder_length|]. split; [apply reorder_Permutation|].
  intros j. apply reorder_tail.
Qed.

(** X14. Every complete pixel is rewritten as red, green, blue, alpha, each
    taken from the position [init] gave its channel: on a little-endian
    machine the bytes b, g, r, a become r, g, b, a; on a big-endian one
    a, r, g, b become r, g, b, a. *)
Theorem argb2rgba_pixel (e : Endianness) (data out : list Byte.byte) (i : nat) :
  argb2rgba (init e) data = Ok out ->
  (4 * i + 3 < List.length data)%nat ->
  nth_error out (4 * i) = nth_error data (4 * i + Z.to_nat (cr (init e)))
  /\ nth_error out (4 * i + 1) = nth_error data (4 * i + Z.to_nat (cg (init e)))
  /\ nth_error out (4 * i + 2) = nth_error data (4 * i + Z.to_nat (cb (init e)))
  /\ nth_error out (4 * i + 3) = nth_error data (4 * i + Z.to_nat (ca (init e)))
  /\ init Little = mkChannels 0 2 1 3
  /\ init Big = mkChannels 3 1 2 0.
Proof.
  intros H Hi. rewrite argb2rgba_reorder in H. injection H as <-.
  destruct (reorder_pixel e data i Hi) as (H0 & H1 & H2 & H3).
  repeat split; assumption.
Qed.

Lemma argb2rgba_pixel_witness :
  let data := [Byte.x01; Byte.x02; Byte.x03; Byte.x04;
               Byte.x0b; Byte.x16; Byte.x21; Byte.x2c; Byte.xff] in
  let out := [Byte.x03; Byte.x02; Byte.x01; Byte.x04;
              Byte.x21; Byte.x16; Byte.x0b; Byte.x2c; Byte.xff] in
  nth_error out (4 * 1) = nth_error data (4 * 1 + Z.to_nat (cr (init Little)))
  /\ nth_error out (4 * 1 + 1) = nth_error data (4 * 1 + Z.to_nat (cg (init Little)))
  /\ nth_error out (4 * 1 + 2) = nth_error data (4 * 1 + Z.to_nat (cb (init Little)))
  /\ nth_error out (4 * 1 + 3) = nth_error data (4 * 1 + Z.to_nat (ca (init Little)))
  /\ init Little = mkChannels 0 2 1 3
  /\ init Big = mkChannels 3 1 2 0.
Proof.
  apply (argb2rgba_pixel Little
           [Byte.x01; Byte.x02; Byte.x03; Byte.x04;
            Byte.x0b; Byte.x16; Byte.x21; Byte.x2c; Byte.xff]
           [Byte.x03; Byte.x02; Byte.x01; Byte.x04;
            Byte.x21; Byte.x16; Byte.x0b; Byte.x2c; Byte.xff] 1);
    [vm_compute; reflexivity | cbn; lia].
Defined.

Lemma reorder_Little_twice (data : list Byte.byte) :
  reorder Little (reorder Little data) = data.
Proof.
  induction data as [l Hl | n0 n1 n2 n3 rest IH] using pixels_ind.
  - destruct l as [|n0 [|n1 [|n2 [|n3 rest]]]]; try reflexivity. cbn in Hl. lia.
  - cbn [reorder]. now rewrite IH.
Qed.

Lemma reorder_Big_four_times (data : list Byte.byte) :
  reorder Big (reorder Big (reorder Big (reorder Big data))) = data.
Proof.
  induction data as [l Hl | n0 n1 n2 n3 rest IH] using pixels_ind.
  - destruct l as [|n0 [|n1 [|n2 [|n3 rest]]]]; try reflexivity. cbn in Hl. lia.
  - cbn [reorder]. now rewrite IH.
Qed.

(** X15. On a little-endian machine [argb2rgba] is its own inverse: applied
    twice it gives the buffer back.  On a big-endian machine it rotates each
    pixel by one byte, and only four applications give the buffer back. *)
Theorem argb2rgba_inverse (data : list Byte.byte) :
  (d1 <- argb2rgba (init Little) data ;; argb2rgba (init Little) d1) = Ok data
  /\ (d1 <- argb2rgba (init Big) data ;;
      d2 <- argb2rgba (init Big) d1 ;;
      d3 <- argb2rgba (init Big) d2 ;;
      argb2rgba (init Big) d3) = Ok data
  /\ (d1 <- argb2rgba (init Big) [Byte.x01; Byte.x02; Byte.x03; Byte.x04] ;;
      argb2rgba (init Big) d1) = Ok [Byte.x03; Byte.x04; Byte.x01; Byte.x02].
Proof.
  split; [|split].
  - rewrite argb2rgba_reorder. cbn [bind].
    now rewrite argb2rgba_reorder, reorder_Little_twice.
  - rewrite argb2rgba_reorder. cbn [bind].
    rewrite argb2rgba_reorder. cbn [bind].
    rewrite argb2rgba_reorder. cbn [bind].
    now rewrite argb2rgba_reorder, reorder_Big_four_times.
  - vm_compute. reflexivity.
Qed.

(** * The in-place reversal of helpers.go *)

Lemma nth_error_assign {A : Type} (s : list A) (i : nat) (v : A) :
  (i < List.length s)%nat ->
  exists s', assign s (Z.of_nat i) v = Ok s'
    /\ List.length s' = List.length s
    /\ forall j, nth_error s' j = if (j =? i)%nat then Some v else nth_error s j.
Proof.
  intros Hi. unfold assign, len.
  replace (Z.of_nat i <? 0) with false by (symmetry; apply Z.ltb_ge; lia).
  replace (Z.of_nat (List.length s) <=? Z.of_nat i) with false
    by (symmetry; apply Z.leb_gt; lia).
  cbn [orb]. rewrite Nat2Z.id. eexists. split; [reflexivity|].
  assert (Hf : List.length (firstn i s) = i) by (rewrite length_firstn; lia).
  split.
  - rewrite length_app. cbn [List.length]. rewrite Hf, length_skipn. lia.
  - intros j. destruct (Nat.eqb_spec j i) as [->|Hne].
    + rewrite nth_error_app2 by lia. now rewrite Hf, Nat.sub_diag.
    + destruct (Nat.lt_ge_cases j i) as [Hlt|Hge].
      * rewrite nth_error_app1 by lia. rewrite nth_error_firstn.
        now replace (j <? i)%nat with true by (symmetry; apply Nat.ltb_lt; lia).
      * rewrite nth_error_app2 by lia. rewrite Hf.
        destruct (j - i)%nat as [|d] eqn:Ed; [lia|]. cbn [nth_error].
        rewrite nth_error_skipn. f_equal. lia.
Qed.

Lemma index_nat {A : Type} (s : list A) (i : nat) (x : A) :
  nth_error s i = Some x -> index s (Z.of_nat i) = Ok x.
Proof.
  intros H. apply index_Ok. split; [lia|]. now rewrite Nat2Z.id.
Qed.

Lemma foldM_app {A S : Type} (body : S -> A -> result S) (l1 l2 : list A) (s : S) :
  foldM body (l1 ++ l2) s = (s' <- foldM body l1 s ;; foldM body l2 s').
Proof.
  revert s. induction l1 as [|a l1 IH]; intros s; cbn [app foldM bind]; [reflexivity|].
  destruct (body s a); cbn [bind]; [apply IH | reflexivity | reflexivity].
Qed.

Section Reversal.

Context {A : Type} (a : list A).

Let n := List.length a.

(** The pass of the loop, as [reverseInPlace] has it. *)
Let pass (s : list A) (i : Z) : result (list A) :=
  let opp := len s - 1 - i in
  x <- index s opp ;;
  y <- index s i ;;
  a1 <- assign s i x ;;
  assign a1 opp y.

(** After the passes for the counters [k], ..., [len/2 - 1] the elements
    between [k] and [len - 1 - k] are mirrored and the others are in place. *)
Let mirrored (k : nat) (s : list A) : Prop :=
  List.length s = n
  /\ forall j, nth_error s j
               = if ((k <=? j) && (j <=? n - 1 - k))%nat
                 then nth_error a (n - 1 - j) else nth_error a j.

Lemma pass_mirrored (k : nat) (s : list A) :
  (2 * k + 1 < n)%nat -> mirrored (S k) s ->
  exists s', pass s (Z.of_nat k) = Ok s' /\ mirrored k s'.
Proof.
  intros Hk [Hlen Hs]. unfold pass, len. rewrite Hlen.
  replace (Z.of_nat n - 1 - Z.of_nat k) with (Z.of_nat (n - 1 - k)) by lia.
  destruct (nth_error s (n - 1 - k)) as [x|] eqn:Ex;
    [| apply nth_error_None in Ex; lia].
  destruct (nth_error s k) as [y|] eqn:Ey; [| apply nth_error_None in Ey; lia].
  rewrite (index_nat _ _ _ Ex), (index_nat _ _ _ Ey). cbn [bind].
  destruct (nth_error_assign s k x ltac:(lia)) as (s1 & -> & Hlen1 & Hs1). cbn [bind].
  destruct (nth_error_assign s1 (n - 1 - k) y ltac:(lia)) as (s2 & -> & Hlen2 & Hs2).
  exists s2. split; [reflexivity|]. split; [lia|].
  intros j. rewrite Hs2, Hs1.
  rewrite Hs in Ex, Ey.
  replace ((S k <=? n - 1 - k) && (n - 1 - k <=? n - 1 - S k))%nat with false in Ex
    by (symmetry; apply andb_false_iff; right; apply Nat.leb_gt; lia).
  replace ((S k <=? k) && (k <=? n - 1 - S k))%nat with false in Ey
    by (symmetry; apply andb_false_iff; left; apply Nat.leb_gt; lia).
  destruct (Nat.eqb_spec j (n - 1 - k)) as [->|Hne1].
  - replace ((k <=? n - 1 - k) && (n - 1 - k <=? n - 1 - k))%nat with true
      by (symmetry; apply andb_true_iff; split; apply Nat.leb_le; lia).
    rewrite <- Ey. f_equal. lia.
  - destruct (Nat.eqb_spec j k) as [->|Hne2].
    + replace ((k <=? k) && (k <=? n - 1 - k))%nat with true
        by (symmetry; apply andb_true_iff; split; apply Nat.leb_le; lia).
      now rewrite <- Ex.
    + rewrite Hs.
      destruct (Nat.leb_spec (S k) j), (Nat.leb_spec j (n - 1 - S k)),
        (Nat.leb_spec k j), (Nat.leb_spec j (n - 1 - k));
        cbn [andb]; try reflexivity; lia.
Qed.

Lemma passes_mirrored (m : nat) :
  (m <= n / 2)%nat ->
  exists s, foldM pass (map Z.of_nat (rev (seq (n / 2 - m) m))) a = Ok s
            /\ mirrored (n / 2 - m) s.
Proof.
  induction m as [|m IH]; intros Hm.
  - exists a. split; [reflexivity|]. split; [reflexivity|].
    intros j. rewrite Nat.sub_0_r.
    destruct (Nat.leb_spec (n / 2) j), (Nat.leb_spec j (n - 1 - n / 2));
      cbn [andb]; try reflexivity.
    f_equal. pose proof (Nat.div_mod_eq n 2).
    pose proof (Nat.mod_upper_bound n 2 ltac:(lia)). lia.
  - destruct (IH ltac:(lia)) as (s & Hs & Hinv).
    replace (n / 2 - m)%nat with (S (n / 2 - S m)) in Hs, Hinv by lia.
    cbn [seq rev]. rewrite map_app, foldM_app, Hs. cbn [bind map foldM].
    pose proof (Nat.div_mod_eq n 2).
    destruct (pass_mirrored (n / 2 - S m) s ltac:(lia) Hinv) as (s' & -> & Hinv').
    exists s'. now split.
Qed.

End Reversal.

(** X16. The swapping loop of [reverse] does not panic and leaves the
    slice reversed, for a slice of any length (an empty slice and a slice
    of one element are left as they are, the middle element of an odd length
    stays in place). *)
Theorem reverseInPlace_rev {A : Type} (a : list A) :
  reverseInPlace a = Ok (rev a) /\ rev a = reverse a.
Proof.
  split; [|reflexivity].
  destruct (passes_mirrored a (List.length a / 2) (Nat.le_refl _))
    as (s & Hs & Hlen & Hnth).
  rewrite Nat.sub_diag in Hs. setoid_rewrite Nat.sub_diag in Hnth.
  unfold reverseInPlace, upto, len.
  replace (Z.to_nat (Z.of_nat (List.length a) ÷ 2)) with (List.length a / 2)%nat.
  2:{ rewrite Z.quot_div_nonneg by lia.
      change 2 with (Z.of_nat 2). rewrite <- Nat2Z.inj_div. now rewrite Nat2Z.id. }
  rewrite <- map_rev. unfold len in Hs. rewrite Hs. f_equal.
  apply nth_error_ext. intros j. rewrite Hnth, nth_error_rev.
  destruct (Nat.ltb_spec j (List.length a)).
  - replace ((0 <=? j) && (j <=? List.length a - 1 - 0))%nat with true
      by (symmetry; apply andb_true_iff; split; apply Nat.leb_le; lia).
    f_equal. lia.
  - destruct ((0 <=? j) && (j <=? List.length a - 1 - 0))%nat eqn:Ec.
    + apply andb_true_iff in Ec as [_ Ec]. apply Nat.leb_le in Ec.
      apply nth_error_None. lia.
    + apply nth_error_None. lia.
Qed.

(** * Bounds restriction without declared bounds *)

Lemma digits_string_of_uint (d : Decimal.uint) (acc : Z) :
  strconv.digits (NilEmpty.string_of_uint d) acc = Some (uint_value d acc).
Proof.
  revert acc. induction d; intros acc; cbn [NilEmpty.string_of_uint uint_value];
    [reflexivity | ..]; cbn [strconv.digits];
    match goal with
    | |- context [strconv.digit ?c] =>
        let v := eval vm_compute in (strconv.digit c) in
        change (strconv.digit c) with v
    end; apply IHd.
Qed.

Lemma uint_value_acc (d : Decimal.uint) (acc : positive) :
  uint_value d (Zpos acc) = Zpos (Pos.of_uint_acc d acc).
Proof.
  revert acc. induction d; intros acc; cbn [uint_value Pos.of_uint_acc];
    [reflexivity | ..];
    match goal with
    | |- uint_value _ ?z = Zpos (Pos.of_uint_acc _ ?p) =>
        replace z with (Zpos p) by lia
    end; apply IHd.
Qed.

Lemma uint_value_0 (d : Decimal.uint) : uint_value d 0 = Z.of_N (Pos.of_uint d).
Proof.
  induction d; cbn [uint_value Pos.of_uint]; [reflexivity | exact IHd | ..];
    match goal with
    | |- uint_value _ ?z = Z.of_N (N.pos (Pos.of_uint_acc _ ?p)) =>
        change z with (Zpos p)
    end; apply uint_value_acc.
Qed.

Lemma magnitude_to_uint (p : positive) :
  exists c rest,
    NilEmpty.string_of_uint (Pos.to_uint p) = String c rest
    /\ Ascii.eqb c "-" = false /\ Ascii.eqb c "+" = false
    /\ strconv.magnitude (String c rest) = Some (Zpos p).
Proof.
  pose proof (digits_string_of_uint (Pos.to_uint p) 0) as Hd.
  rewrite uint_value_0, Unsigned.of_to in Hd. cbn [Z.of_N] in Hd.
  pose proof (Unsigned.to_uint_nonnil p) as Hnil.
  destruct (Pos.to_uint p) eqn:E; [congruence | ..];
    cbn [NilEmpty.string_of_uint] in *; eexists _, _;
    (split; [reflexivity|]); (split; [reflexivity|]); (split; [reflexivity|]);
    exact Hd.
Qed.

(** Converting an [int] to a string and back gives the [int], without error. *)
Lemma Atoi_Itoa (n : Z) :
  strconv.minInt <= n <= strconv.maxInt -> strconv.Atoi (strconv.Itoa n) = (n, false).
Proof.
  intros Hn. unfold strconv.Atoi, strconv.Itoa.
  assert (Hclamp : strconv.clamp n = (n, false)).
  { unfold strconv.clamp.
    replace (n >? strconv.maxInt) with false by (symmetry; rewrite Z.gtb_ltb; apply Z.ltb_ge; lia).
    now replace (n <? strconv.minInt) with false by (symmetry; apply Z.ltb_ge; lia). }
  destruct n as [|p|p].
  - reflexivity.
  - cbn [Z.to_int NilZero.string_of_int]. unfold NilZero.string_of_uint.
    destruct (magnitude_to_uint p) as (c & rest & Es & Hm & Hp & Hmag).
    replace (match Pos.to_uint p with
             | Decimal.Nil => "0"%string
             | _ => NilEmpty.string_of_uint (Pos.to_uint p)
             end) with (NilEmpty.string_of_uint (Pos.to_uint p))
      by (pose proof (Unsigned.to_uint_nonnil p); destruct (Pos.to_uint p); congruence).
    rewrite Es. unfold strconv.parse. rewrite Hm, Hp, Hmag. exact Hclamp.
  - cbn [Z.to_int NilZero.string_of_int]. unfold NilZero.string_of_uint.
    destruct (magnitude_to_uint p) as (c & rest & Es & Hm & Hp & Hmag).
    replace (match Pos.to_uint p with
             | Decimal.Nil => "0"%string
             | _ => NilEmpty.string_of_uint (Pos.to_uint p)
             end) with (NilEmpty.string_of_uint (Pos.to_uint p))
      by (pose proof (Unsigned.to_uint_nonnil p); destruct (Pos.to_uint p); congruence).
    rewrite Es. unfold strconv.parse.
    change (Ascii.eqb "-" "-") with true. cbv iota. rewrite Hmag. exact Hclamp.
Qed.

Lemma mustStrToInt_default (slide : WSI) (name : string) (n : Z) :
  Properties slide name = None ->
  strconv.minInt <= n <= strconv.maxInt ->
  mustStrToInt (PropertyValueWithDefault slide name (strconv.Itoa n)) = n.
Proof.
  intros Habs Hn. unfold mustStrToInt, PropertyValueWithDefault.
  now rewrite Habs, Atoi_Itoa.
Qed.

(** X17. With bounds restriction enabled but no bounds-width and
    bounds-height property on the slide, each ratio is the level-0 dimension
    printed and parsed back, divided by itself: the level dimensions are the
    native ones, as without restriction.  The level-0 dimensions are taken
    non-zero and within the range of [int]. *)
Theorem absent_bounds_keep_dimensions (slide : WSI) :
  Properties slide PropertyBoundsWidth = None ->
  Properties slide PropertyBoundsHeight = None ->
  1 <= LevelCount slide ->
  X (level0Dimensions slide) <> 0 -> Y (level0Dimensions slide) <> 0 ->
  strconv.minInt <= X (level0Dimensions slide) <= strconv.maxInt ->
  strconv.minInt <= Y (level0Dimensions slide) <= strconv.maxInt ->
  getLevelDimensions slide true = Ok (nativeDimensions slide)
  /\ getLevelDimensions slide true = getLevelDimensions slide false.
Proof.
  intros Hw Hh Hn Hx Hy Rx Ry.
  assert (Ht : getLevelDimensions slide true = Ok (nativeDimensions slide)).
  { destruct (nativeDimensions_head slide Hn) as [rest Enat].
    unfold getLevelDimensions.
    replace (LevelCount slide <? 0) with false by (symmetry; apply Z.ltb_ge; lia).
    cbn [negb]. rewrite Enat at 1. unfold index at 1.
    cbn [Z.ltb Z.compare Z.to_nat nth_error bind].
    rewrite !mustStrToInt_default by assumption. unfold idiv.
    replace (X (level0Dimensions slide) =? 0) with false
      by (symmetry; now apply Z.eqb_neq).
    replace (Y (level0Dimensions slide) =? 0) with false
      by (symmetry; now apply Z.eqb_neq).
    cbn [bind]. rewrite !Z.quot_same by assumption. f_equal.
    rewrite <- (map_id (nativeDimensions slide)) at 2.
    apply map_ext. intros [x y]. cbn [X Y]. f_equal; lia. }
  split; [exact Ht|]. rewrite Ht. unfold getLevelDimensions.
  now replace (LevelCount slide <? 0) with false by (symmetry; apply Z.ltb_ge; lia).
Qed.

Lemma absent_bounds_keep_dimensions_witness :
  getLevelDimensions garbledSlide true = Ok (nativeDimensions garbledSlide)
  /\ getLevelDimensions garbledSlide true = getLevelDimensions garbledSlide false.
Proof.
  apply (absent_bounds_keep_dimensions garbledSlide);
    [ vm_compute; reflexivity
    | vm_compute; reflexivity
    | vm_compute; discriminate
    | vm_compute; discriminate
    | vm_compute; discriminate
    | vm_compute; split; discriminate
    | vm_compute; split; discriminate ].
Defined.

(** * A slide without pixels *)





(** * The two property lookups *)

(** The lookup used by the generator above agrees with the binding's on
    every property that is absent or has a non-empty value; on a property
    whose value is the empty string the binding returns the default. *)
Lemma PropertyValue_Binding (slide : WSI) (name : string) :
  Binding.PropertyValue slide name = PropertyValue slide name.
Proof.
  unfold Binding.PropertyValue, PropertyValue, PropertyValueWithDefault.
  now destruct (Properties slide name).
Qed.

Lemma PropertyValueWithDefault_Binding (slide : WSI) (name default : string) :
  Properties slide name <> Some EmptyString ->
  Binding.PropertyValueWithDefault slide name default
  = PropertyValueWithDefault slide name default.
Proof.
  unfold Binding.PropertyValueWithDefault, Binding.PropertyValue, PropertyValueWithDefault.
  destruct (Properties slide name) as [v|]; intros H; [|reflexivity].
  destruct (String.eqb_spec v EmptyString) as [->|Hne]; [congruence | reflexivity].
Qed.

(** * The grid of each level *)



